(** * electron-tanstack: the sidebar navigation and the dashboard layout

    A shallow embedding of the two React components of the renderer,

    - [AppSidebar] with its module-level registry [items]
      (components/app-sidebar), and
    - [RouteComponent], the layout of the [/dashboard] route
      (routes/dashboard/layout.tsx),

    as functions that build the element tree the JSX denotes.  The UI toolkit
    components, the lucide icons and the router's [Link] and [Outlet] are
    imported by the source and stay opaque element types here; what the router
    does with a [Link] or an [Outlet] is described in [Module Router]. *)

From stdpp Require Import base strings list.

Open Scope string_scope.

(** ** Element trees *)

Module Jsx.

(** The glyphs imported from lucide-react. *)
Inductive Icon := Calendar | Home | Inbox | Search | Settings.

(** The element types occurring in the two components. *)
Inductive Component :=
| Sidebar
| SidebarContent
| SidebarGroup
| SidebarGroupContent
| SidebarGroupLabel
| SidebarMenu
| SidebarMenuButton
| SidebarMenuItem
| Link
| Outlet
| Lucide (glyph : Icon)
| div
| span.

(** The props the source passes.  An attribute that is not written, or that
    is written with the value [undefined], reads as [None]. *)
Record Props := {
  key : option string;
  asChild : bool;
  to : option string;
  className : option string
}.

Definition no_props : Props :=
  {| key := None; asChild := false; to := None; className := None |}.

(** An element tree.  Children are kept in document order and after React's
    normalisation: an array child is spliced in place and an [undefined]
    child contributes nothing. *)
#[local] Unset Elimination Schemes.
Inductive Node :=
| Text (s : string)
| Elem (c : Component) (p : Props) (children : list Node).
#[local] Set Elimination Schemes.

#[global] Instance Icon_eq_dec : EqDecision Icon.
Proof. solve_decision. Defined.

#[global] Instance Component_eq_dec : EqDecision Component.
Proof. solve_decision. Defined.

(** [{v}] in child position, for a value that may be [undefined]. *)
Definition text_child (v : option string) : list Node :=
  match v with
  | Some s => [Text s]
  | None => []
  end.

Definition props_of (n : Node) : Props :=
  match n with
  | Text _ => no_props
  | Elem _ p _ => p
  end.

Definition children_of (n : Node) : list Node :=
  match n with
  | Text _ => []
  | Elem _ _ kids => kids
  end.

(** All elements of type [c] in the tree, in document order. *)
Fixpoint select (c : Component) (n : Node) : list Node :=
  match n with
  | Text _ => []
  | Elem c' _ kids =>
      (if decide (c' = c) then [n] else []) ++ flat_map (select c) kids
  end.

(** The text of a tree, as the DOM's [textContent] gives it. *)
Fixpoint textContent (n : Node) : string :=
  match n with
  | Text s => s
  | Elem _ _ kids => String.concat "" (map textContent kids)
  end.

(** The tree with the children of every [c] element removed. *)
Fixpoint hollow (c : Component) (n : Node) : Node :=
  match n with
  | Text s => Text s
  | Elem c' p kids =>
      Elem c' p (if decide (c' = c) then [] else map (hollow c) kids)
  end.

End Jsx.

Import Jsx.

(** ** components/app-sidebar *)

Module AppSidebarModule.

(** One element of [items].  It is a plain object literal: reading a
    property that the literal does not have gives [undefined], which is
    [None] here.  The icon is a component reference. *)
Record NavigationEntry := {
  title : option string;
  url : option string;
  icon : Icon
}.

(** [const items = [...]] *)
Definition items : list NavigationEntry :=
  [ {| title := Some "Home"; url := Some "/"; icon := Home |};
    {| title := Some "Dashboard"; url := Some "/dashboard"; icon := Inbox |};
    {| title := Some "Settings"; url := Some "/settings"; icon := Settings |} ].

(** The callback of [items.map]: one [SidebarMenuItem] per entry. *)
Definition menu_item (item : NavigationEntry) : Node :=
  Elem SidebarMenuItem
    {| key := title item; asChild := false; to := None; className := None |}
    [ Elem SidebarMenuButton
        {| key := None; asChild := true; to := None; className := None |}
        [ Elem Link
            {| key := None; asChild := false; to := url item; className := None |}
            [ Elem (Lucide (icon item)) no_props [];
              Elem span no_props (text_child (title item)) ] ] ].

(** The body of [AppSidebar], with the registry it maps over as an
    argument. *)
Definition AppSidebar_of (registry : list NavigationEntry) : Node :=
  Elem Sidebar no_props
    [ Elem SidebarContent no_props
        [ Elem SidebarGroup no_props
            [ Elem SidebarGroupLabel no_props [Text "Application"];
              Elem SidebarGroupContent no_props
                [ Elem SidebarMenu no_props (map menu_item registry) ] ] ] ].

(** [export function AppSidebar()]: the body at the module's [items]. *)
Definition AppSidebar : Node := AppSidebar_of items.

(** The element types of the chrome around the menu items. *)
Definition chrome_types : list Component :=
  [Sidebar; SidebarContent; SidebarGroup; SidebarGroupContent;
   SidebarGroupLabel; SidebarMenu].

(** The rendered menu items, their identity keys and their labels. *)
Definition menu_items (tree : Node) : list Node := select SidebarMenuItem tree.

Definition item_keys (tree : Node) : list (option string) :=
  map (fun n => key (props_of n)) (menu_items tree).

Definition item_labels (tree : Node) : list string :=
  map textContent (menu_items tree).

(** The [to] props of the links inside the menu items. *)
Definition item_targets (tree : Node) : list (option string) :=
  map (fun n => to (props_of n)) (flat_map (select Link) (menu_items tree)).

End AppSidebarModule.

Import AppSidebarModule.

(** ** routes/dashboard/layout.tsx *)

Module DashboardLayout.

(** [function RouteComponent()]: the text and the inner [div] are the two
    children of the outer [div]; the inner one holds the [Outlet]. *)
Definition RouteComponent : Node :=
  Elem div
    {| key := None; asChild := false; to := None;
       className := Some "min-h-screen " |}
    [ Text "Dashboard Layout";
      Elem div no_props [ Elem Outlet no_props [] ] ].

(** [createFileRoute('/dashboard')({ component: RouteComponent })] *)
Record FileRoute := {
  route_path : string;
  component : Node
}.

Definition Route : FileRoute :=
  {| route_path := "/dashboard"; component := RouteComponent |}.

End DashboardLayout.

Import DashboardLayout.

(** ** The router, as far as the two components rely on it *)

Module Router.

(** Modelled from the spec: [Outlet] is the router's component, not part of
    the sources.  The spec describes it as the slot whose content is
    "supplied by the external routing collaborator as whatever child route
    currently matches"; with no match it shows nothing.  [outlet child]
    replaces every [Outlet] element of a tree by that content. *)
Fixpoint outlet (child : list Node) (n : Node) : list Node :=
  match n with
  | Text s => [Text s]
  | Elem c p kids =>
      if decide (c = Outlet) then child
      else [Elem c p (flat_map (outlet child) kids)]
  end.

(** The ways an item can be activated. *)
Inductive Method := Pointer | KeyEnter | KeySpace.

(** A request handed to the router: the [to] prop of the link, as it is. *)
Record NavRequest := Navigate { nav_to : option string }.

(** Modelled from the spec: [Link] is the router's component, not part of
    the sources.  The spec describes its activation as "request a
    client-side navigation to the entry's target path", "regardless of
    activation method"; the source attaches no handler of its own. *)
Definition Link_activated (m : Method) (link : Node) : list NavRequest :=
  [Navigate (to (props_of link))].

(** Activating an item reaches the links rendered inside it. *)
Definition activate (m : Method) (item : Node) : list NavRequest :=
  flat_map (Link_activated m) (select Link item).

End Router.

Import Router.

(** ** The running program *)

Module Runtime.

(** What persists between renders: the module-level [items] and what the
    router has been asked to do. *)
Record World := {
  st_items : list NavigationEntry;
  st_requests : list NavRequest
}.

(** The result of evaluating a piece of the program that may throw. *)
Inductive outcome (A : Type) :=
| Returned (a : A)
| Threw (err : string).
Arguments Returned {A} a.
Arguments Threw {A} err.

(** Module evaluation, [const items = [...]]: the literal is stored as it is
    written; nothing inspects its entries. *)
Definition startup (literal : list NavigationEntry) : outcome World :=
  Returned {| st_items := literal; st_requests := [] |}.

(** Computations over the world. *)
Definition M (A : Type) : Type := World → A * World.

#[global] Instance M_ret : MRet M := λ A a w, (a, w).
#[global] Instance M_bind : MBind M :=
  λ A B f m w, let '(a, w') := m w in f a w'.

Definition read_items : M (list NavigationEntry) :=
  λ w, (st_items w, w).

Definition hand_to_router (rs : list NavRequest) : M unit :=
  λ w, (tt, {| st_items := st_items w; st_requests := st_requests w ++ rs |}).

(** [AppSidebar()] reads [items] and builds its tree. *)
Definition renderSidebar : M Node :=
  registry ← read_items; mret (AppSidebar_of registry).

(** [RouteComponent()], its outlet filled by the router. *)
Definition renderLayout (child : list Node) : M (list Node) :=
  mret (outlet child RouteComponent).

(** The user activates the [i]-th item of the sidebar on screen. *)
Definition activateItem (m : Method) (i : nat) : M unit :=
  tree ← renderSidebar;
  match menu_items tree !! i with
  | Some item => hand_to_router (activate m item)
  | None => mret tt
  end.

Inductive Op :=
| RenderSidebar
| RenderLayout (child : list Node)
| ActivateItem (m : Method) (i : nat).

Definition step (o : Op) : M unit :=
  match o with
  | RenderSidebar => _ ← renderSidebar; mret tt
  | RenderLayout child => _ ← renderLayout child; mret tt
  | ActivateItem m i => activateItem m i
  end.

Fixpoint run (ops : list Op) : M unit :=
  match ops with
  | [] => mret tt
  | o :: ops' => _ ← step o; run ops'
  end.

(** Start the program on a registry literal and render the sidebar once. *)
Definition mount (literal : list NavigationEntry) : outcome Node :=
  match startup literal with
  | Returned w => Returned (renderSidebar w).1
  | Threw err => Threw err
  end.

(** An entry is well formed when it has both its title and its path. *)
Definition well_formed (e : NavigationEntry) : Prop :=
  is_Some (title e) ∧ is_Some (url e).

End Runtime.

Import Runtime.

(** ** Registries used as test inputs *)

Module Scenarios.

(** Two entries with one title and different paths. *)
Definition reports : NavigationEntry :=
  {| title := Some "Reports"; url := Some "/reports"; icon := Inbox |}.

Definition reports_archive : NavigationEntry :=
  {| title := Some "Reports"; url := Some "/reports/archive"; icon := Calendar |}.

(** An object literal without [title], and one without [url]. *)
Definition untitled : NavigationEntry :=
  {| title := None; url := Some "/search"; icon := Search |}.

Definition pathless : NavigationEntry :=
  {| title := Some "Calendar"; url := None; icon := Calendar |}.



End Scenarios.

Import Scenarios.

(** ** Reading a rendered tree *)

Module Inspect.

Definition type_of (n : Node) : option Component :=
  match n with
  | Text _ => None
  | Elem c _ _ => Some c
  end.

(** Every element of a tree, in document order. *)
Fixpoint elements (n : Node) : list Node :=
  match n with
  | Text _ => []
  | Elem _ _ kids => n :: flat_map elements kids
  end.

(** The glyphs a tree shows, in document order. *)
Fixpoint glyphs (n : Node) : list Icon :=
  match n with
  | Text _ => []
  | Elem c _ kids =>
      match c with
      | Lucide g => [g]
      | _ => []
      end ++ flat_map glyphs kids
  end.

(** An element rendered with [asChild] hands its own rendering to its child,
    so it must hold exactly one child element; here that child is a link. *)
Definition slot_ok (n : Node) : Prop :=
  asChild (props_of n) = true →
  type_of n = Some SidebarMenuButton ∧
  ∃ link, children_of n = [link] ∧ type_of link = Some Link.

(** Identity keys are given to the elements of the mapped list only. *)
Definition key_ok (n : Node) : Prop :=
  is_Some (key (props_of n)) → type_of n = Some SidebarMenuItem.

End Inspect.

Import Inspect.

(** ** The registry literal, before anything reads it *)

Module Untyped.

(** An object literal of the array as it can be written: each of the three
    properties may be left out. *)
Record ObjectLiteral := {
  lit_title : option string;
  lit_url : option string;
  lit_icon : option Icon
}.

(** Module evaluation, [const items = [...]]: the array is stored as it is
    written; no code inspects its entries. *)
Definition define_items (literal : list ObjectLiteral) :
    outcome (list ObjectLiteral) :=
  Returned literal.

(** What the callback of [items.map] reads from an entry.  [item.title] and
    [item.url] may be [undefined]: a key, a child position and the [to] prop
    accept that.  [<item.icon />] needs a component: an element whose type is
    [undefined] cannot be rendered. *)
Definition entry_of (o : ObjectLiteral) : option NavigationEntry :=
  match lit_icon o with
  | Some glyph =>
      Some {| title := lit_title o; url := lit_url o; icon := glyph |}
  | None => None
  end.

(** Rendering the stored array: React throws at the first element whose type
    is [undefined]; otherwise the tree of [AppSidebar] is returned. *)
Definition render_literal (stored : list ObjectLiteral) : outcome Node :=
  match mapM entry_of stored with
  | Some registry => Returned (AppSidebar_of registry)
  | None => Threw "Element type is invalid: got undefined"
  end.

(** Module evaluation, then the first render. *)
Definition boot (literal : list ObjectLiteral) : outcome Node :=
  match define_items literal with
  | Returned stored => render_literal stored
  | Threw err => Threw err
  end.

(** An entry written in full, and the literal of a typed entry. *)
Definition complete (o : ObjectLiteral) : Prop :=
  is_Some (lit_title o) ∧ is_Some (lit_url o) ∧ is_Some (lit_icon o).

Definition literal_of (e : NavigationEntry) : ObjectLiteral :=
  {| lit_title := title e; lit_url := url e; lit_icon := Some (icon e) |}.

End Untyped.

Import Untyped.

(** ** Links that the router marks as active *)

Module ActiveLinks.








End ActiveLinks.

Import ActiveLinks.

(** ** Facts about the sidebar *)

Section SidebarItems.

Lemma select_menu_item (e : NavigationEntry) :
  select SidebarMenuItem (menu_item e) = [menu_item e].
Proof. destruct e as [[t|] u i]; reflexivity. Qed.

Lemma select_menu_rows (R : list NavigationEntry) :
  flat_map (select SidebarMenuItem) (map menu_item R) = map menu_item R.
Proof.
  induction R as [|e R IH]; [done|].
  cbn [map flat_map]. rewrite select_menu_item, IH. done.
Qed.

Lemma menu_items_AppSidebar_of (R : list NavigationEntry) :
  menu_items (AppSidebar_of R) = map menu_item R.
Proof.
  unfold menu_items, AppSidebar_of. cbn.
  repeat (case_decide; [discriminate|]). cbn.
  rewrite !app_nil_r. apply select_menu_rows.
Qed.

Lemma textContent_menu_item (e : NavigationEntry) :
  textContent (menu_item e) = default "" (title e).
Proof. destruct e as [[t|] u i]; reflexivity. Qed.

Lemma select_Link_menu_item (e : NavigationEntry) :
  select Link (menu_item e) =
  [ Elem Link
      {| key := None; asChild := false; to := url e; className := None |}
      [ Elem (Lucide (icon e)) no_props [];
        Elem span no_props (text_child (title e)) ] ].
Proof. destruct e as [[t|] u i]; reflexivity. Qed.

Lemma item_keys_AppSidebar_of (R : list NavigationEntry) :
  item_keys (AppSidebar_of R) = title <$> R.
Proof.
  unfold item_keys. rewrite menu_items_AppSidebar_of.
  rewrite map_map. done.
Qed.

Lemma item_labels_AppSidebar_of (R : list NavigationEntry) :
  item_labels (AppSidebar_of R) = (λ e, default "" (title e)) <$> R.
Proof.
  unfold item_labels. rewrite menu_items_AppSidebar_of, map_map.
  apply map_ext. intros e. apply textContent_menu_item.
Qed.

Lemma item_targets_AppSidebar_of (R : list NavigationEntry) :
  item_targets (AppSidebar_of R) = url <$> R.
Proof.
  unfold item_targets. rewrite menu_items_AppSidebar_of.
  induction R as [|e R IH]; [done|].
  cbn [map flat_map fmap list_fmap]. rewrite select_Link_menu_item.
  cbn [app map]. f_equal. exact IH.
Qed.

(** C1: for every registry, the rendered sidebar has exactly as many menu
    items as the registry has entries, and the item at each position is the
    one built from the entry at that position: it shows that entry's title
    and links to that entry's path. *)
Theorem sidebar_one_item_per_entry (R : list NavigationEntry) :
  length (menu_items (AppSidebar_of R)) = length R ∧
  (∀ i : nat, menu_items (AppSidebar_of R) !! i = menu_item <$> R !! i) ∧
  item_labels (AppSidebar_of R) = (λ e, default "" (title e)) <$> R ∧
  item_targets (AppSidebar_of R) = url <$> R.
Proof.
  split_and!.
  - rewrite menu_items_AppSidebar_of. apply length_map.
  - intros i. rewrite menu_items_AppSidebar_of. apply list_lookup_fmap.
  - apply item_labels_AppSidebar_of.
  - apply item_targets_AppSidebar_of.
Qed.

End SidebarItems.

Section SidebarChrome.

Lemma select_chrome_menu_item (c : Component) (e : NavigationEntry) :
  c ∈ chrome_types → select c (menu_item e) = [].
Proof.
  unfold chrome_types. intros Hc.
  repeat (apply elem_of_cons in Hc as [->|Hc]);
    [destruct e as [[t|] u i]; reflexivity ..|].
  by apply elem_of_nil in Hc.
Qed.

Lemma select_chrome_menu_rows (c : Component) (R : list NavigationEntry) :
  c ∈ chrome_types → flat_map (select c) (map menu_item R) = [].
Proof.
  intros Hc. induction R as [|e R IH]; [done|].
  cbn [map flat_map]. rewrite select_chrome_menu_item, IH; done.
Qed.

Lemma select_SidebarGroupLabel (R : list NavigationEntry) :
  select SidebarGroupLabel (AppSidebar_of R) =
  [Elem SidebarGroupLabel no_props [Text "Application"]].
Proof.
  unfold AppSidebar_of. cbn.
  repeat (case_decide; try congruence). cbn.
  rewrite select_chrome_menu_rows by (unfold chrome_types; repeat constructor).
  reflexivity.
Qed.

Lemma select_SidebarMenu (R : list NavigationEntry) :
  select SidebarMenu (AppSidebar_of R) =
  [Elem SidebarMenu no_props (map menu_item R)].
Proof.
  unfold AppSidebar_of. cbn.
  repeat (case_decide; try congruence). cbn.
  rewrite select_chrome_menu_rows by (unfold chrome_types; repeat constructor).
  reflexivity.
Qed.

(** C10: for every registry the sidebar is the same chrome around the menu:
    one group label reading "Application", one menu that holds the items,
    and, once the menu's items are taken out, the very tree that the empty
    registry renders. *)
Theorem sidebar_chrome_is_fixed (R : list NavigationEntry) :
  textContent <$> select SidebarGroupLabel (AppSidebar_of R) = ["Application"] ∧
  children_of <$> select SidebarMenu (AppSidebar_of R) = [menu_items (AppSidebar_of R)] ∧
  hollow SidebarMenu (AppSidebar_of R) = AppSidebar_of [] ∧
  AppSidebar_of [] =
    Elem Sidebar no_props
      [ Elem SidebarContent no_props
          [ Elem SidebarGroup no_props
              [ Elem SidebarGroupLabel no_props [Text "Application"];
                Elem SidebarGroupContent no_props
                  [ Elem SidebarMenu no_props [] ] ] ] ].
Proof.
  split_and!.
  - rewrite select_SidebarGroupLabel. reflexivity.
  - rewrite select_SidebarMenu, menu_items_AppSidebar_of. reflexivity.
  - reflexivity.
  - reflexivity.
Qed.

(** C4: the empty registry renders a sidebar whose menu has no children at
    all, so no menu item; starting the program on it and rendering returns
    that tree. *)
Theorem empty_registry_renders_empty_menu :
  menu_items (AppSidebar_of []) = [] ∧
  select SidebarMenu (AppSidebar_of []) = [Elem SidebarMenu no_props []] ∧
  mount [] = Returned (AppSidebar_of []).
Proof. split_and!; reflexivity. Qed.

End SidebarChrome.

(** ** Identity keys *)

Section SidebarKeys.

(** C6, as stated, fails: two entries that share a title and differ in their
    path are rendered with the same identity key. *)
Lemma same_title_same_key :
  title reports = title reports_archive ∧
  url reports ≠ url reports_archive ∧
  item_keys (AppSidebar_of [reports; reports_archive]) =
    [Some "Reports"; Some "Reports"] ∧
  ¬ NoDup (item_keys (AppSidebar_of [reports; reports_archive])).
Proof.
  split_and!; [reflexivity | discriminate | reflexivity |].
  intros Hnd. apply NoDup_cons in Hnd as [Hnotin _].
  apply Hnotin. constructor.
Qed.

(** C6, amended: the identity key of an item is its entry's title and
    nothing else, so the keys of the rendered items are pairwise distinct
    whenever the titles of the registry are. *)
Theorem keys_distinct_when_titles_distinct (R : list NavigationEntry) :
  NoDup (title <$> R) →
  item_keys (AppSidebar_of R) = title <$> R ∧
  NoDup (item_keys (AppSidebar_of R)).
Proof.
  intros Hnd. rewrite item_keys_AppSidebar_of. done.
Qed.

Lemma keys_distinct_when_titles_distinct_witness :
  NoDup (title <$> items) ∧
  item_keys (AppSidebar_of items) = title <$> items ∧
  NoDup (item_keys (AppSidebar_of items)).
Proof.
  assert (Hnd : NoDup (title <$> items)).
  { apply (bool_decide_unpack _). vm_compute. exact I. }
  split; [exact Hnd|].
  apply (keys_distinct_when_titles_distinct items Hnd).
Defined.

End SidebarKeys.

(** ** Activation *)

Section Activation.

Lemma activate_menu_item (m : Method) (e : NavigationEntry) :
  activate m (menu_item e) = [Navigate (url e)].
Proof. unfold activate. rewrite select_Link_menu_item. reflexivity. Qed.

Lemma activateItem_at (m : Method) (i : nat) (e : NavigationEntry) (w : World) :
  st_items w !! i = Some e →
  activateItem m i w =
  (tt, {| st_items := st_items w;
          st_requests := st_requests w ++ [Navigate (url e)] |}).
Proof.
  intros Hi. unfold activateItem, renderSidebar, read_items.
  unfold mbind, M_bind, mret, M_ret.
  rewrite menu_items_AppSidebar_of, list_lookup_fmap, Hi.
  cbn [fmap option_fmap option_map]. unfold hand_to_router.
  rewrite activate_menu_item. reflexivity.
Qed.

Lemma activateItem_beyond (m : Method) (i : nat) (w : World) :
  st_items w !! i = None → activateItem m i w = (tt, w).
Proof.
  intros Hi. unfold activateItem, renderSidebar, read_items.
  unfold mbind, M_bind, mret, M_ret.
  rewrite menu_items_AppSidebar_of, list_lookup_fmap, Hi. reflexivity.
Qed.

(** C3: the item rendered for the entry at position [i] holds one link, to
    that entry's path; activating the item, by whichever method, hands the
    router exactly one request, for that path, and changes nothing else. *)
Theorem activation_requests_entry_path
    (R : list NavigationEntry) (i : nat) (e : NavigationEntry)
    (m : Method) (rs : list NavRequest) :
  R !! i = Some e →
  menu_items (AppSidebar_of R) !! i = Some (menu_item e) ∧
  to <$> (props_of <$> select Link (menu_item e)) = [url e] ∧
  activate m (menu_item e) = [Navigate (url e)] ∧
  (activateItem m i {| st_items := R; st_requests := rs |}).2 =
    {| st_items := R; st_requests := rs ++ [Navigate (url e)] |}.
Proof.
  intros Hi. split_and!.
  - rewrite menu_items_AppSidebar_of, list_lookup_fmap, Hi. reflexivity.
  - rewrite select_Link_menu_item. reflexivity.
  - apply activate_menu_item.
  - rewrite (activateItem_at m i e); [reflexivity | exact Hi].
Qed.

Lemma activation_requests_entry_path_witness :
  let e := {| title := Some "Settings"; url := Some "/settings"; icon := Settings |} in
  items !! 2 = Some e ∧
  menu_items (AppSidebar_of items) !! 2 = Some (menu_item e) ∧
  to <$> (props_of <$> select Link (menu_item e)) = [url e] ∧
  activate KeySpace (menu_item e) = [Navigate (url e)] ∧
  (activateItem KeySpace 2 {| st_items := items; st_requests := [] |}).2 =
    {| st_items := items; st_requests := [] ++ [Navigate (url e)] |}.
Proof.
  intros e. split; [reflexivity|].
  apply (activation_requests_entry_path items 2 e KeySpace []).
  reflexivity.
Defined.

(** C5: the registry Home, Dashboard, Settings renders three items, in that
    order and with those labels, and activating the second one hands the
    router one request, for "/dashboard". *)
Theorem home_dashboard_settings_scenario :
  items =
    [ {| title := Some "Home"; url := Some "/"; icon := Home |};
      {| title := Some "Dashboard"; url := Some "/dashboard"; icon := Inbox |};
      {| title := Some "Settings"; url := Some "/settings"; icon := Settings |} ] ∧
  length (menu_items AppSidebar) = 3 ∧
  item_labels AppSidebar = ["Home"; "Dashboard"; "Settings"] ∧
  item_targets AppSidebar = [Some "/"; Some "/dashboard"; Some "/settings"] ∧
  ∀ (m : Method) (rs : list NavRequest),
    (activateItem m 1 {| st_items := items; st_requests := rs |}).2 =
      {| st_items := items;
         st_requests := rs ++ [Navigate (Some "/dashboard")] |}.
Proof.
  split_and!; [reflexivity ..|].
  intros m rs.
  rewrite (activateItem_at m 1
             {| title := Some "Dashboard"; url := Some "/dashboard"; icon := Inbox |});
    reflexivity.
Qed.

End Activation.

(** ** The layout *)

Section Layout.

Lemma outlet_RouteComponent (child : list Node) :
  outlet child RouteComponent =
  [ Elem div
      {| key := None; asChild := false; to := None;
         className := Some "min-h-screen " |}
      [ Text "Dashboard Layout"; Elem div no_props child ] ].
Proof.
  unfold RouteComponent. cbn.
  repeat (case_decide; try congruence). cbn.
  rewrite !app_nil_r. reflexivity.
Qed.

(** C2: the layout has exactly one outlet, inside its inner [div]; whatever
    content the router puts there, the result is the outer [div] with the
    text "Dashboard Layout" followed by the inner [div] holding that content
    and nothing else; with no matched child the inner [div] is empty. *)
Theorem layout_frame_and_slot (child : list Node) :
  select Outlet RouteComponent = [Elem Outlet no_props []] ∧
  outlet child RouteComponent =
    [ Elem div
        {| key := None; asChild := false; to := None;
           className := Some "min-h-screen " |}
        [ Text "Dashboard Layout"; Elem div no_props child ] ] ∧
  outlet [] RouteComponent =
    [ Elem div
        {| key := None; asChild := false; to := None;
           className := Some "min-h-screen " |}
        [ Text "Dashboard Layout"; Elem div no_props [] ] ] ∧
  textContent <$> outlet [] RouteComponent = ["Dashboard Layout"] ∧
  component Route = RouteComponent.
Proof.
  split_and!.
  - reflexivity.
  - apply outlet_RouteComponent.
  - apply outlet_RouteComponent.
  - reflexivity.
  - reflexivity.
Qed.

End Layout.

(** ** The registry over a run of the program *)

Section RegistryIsConstant.


Lemma renderLayout_spec (child : list Node) (w : World) :
  renderLayout child w = (outlet child RouteComponent, w).
Proof. reflexivity. Qed.

Lemma activateItem_keeps_items (m : Method) (i : nat) (w : World) :
  st_items (activateItem m i w).2 = st_items w.
Proof.
  destruct (st_items w !! i) as [e|] eqn:Hi.
  - rewrite (activateItem_at m i e w Hi). reflexivity.
  - rewrite (activateItem_beyond m i w Hi). reflexivity.
Qed.

Lemma step_keeps_items (o : Op) (w : World) :
  st_items (step o w).2 = st_items w.
Proof.
  destruct o as [|child|m i]; [reflexivity | reflexivity |].
  apply activateItem_keeps_items.
Qed.

Lemma run_cons (o : Op) (ops : list Op) (w : World) :
  run (o :: ops) w = run ops (step o w).2.
Proof.
  cbn [run]. unfold mbind, M_bind.
  destruct (step o w) as [[] w']. reflexivity.
Qed.

(** C8: whatever sequence of sidebar renders, layout renders and item
    activations the program performs, the registry afterwards is the
    registry it started with: same entries, same order. *)
Theorem registry_never_changes (ops : list Op) (w : World) :
  st_items (run ops w).2 = st_items w.
Proof.
  revert w. induction ops as [|o ops IH]; intros w; [reflexivity|].
  rewrite run_cons, IH. apply step_keeps_items.
Qed.

End RegistryIsConstant.

(** ** Malformed entries *)

Section Validation.

(** C7, as stated, fails: a registry literal holding an entry without title
    and one without path passes module evaluation unchanged, and both
    entries are rendered, the first as an item with no key and an empty
    label, the second as an item whose link has no target. *)
Lemma malformed_entries_pass_startup :
  ¬ well_formed untitled ∧
  ¬ well_formed pathless ∧
  startup [untitled; pathless] =
    Returned {| st_items := [untitled; pathless]; st_requests := [] |} ∧
  mount [untitled; pathless] = Returned (AppSidebar_of [untitled; pathless]) ∧
  item_keys (AppSidebar_of [untitled; pathless]) = [None; Some "Calendar"] ∧
  item_labels (AppSidebar_of [untitled; pathless]) = [""; "Calendar"] ∧
  item_targets (AppSidebar_of [untitled; pathless]) = [Some "/search"; None].
Proof.
  split_and!; try reflexivity.
  - intros [[t Ht] _]. discriminate Ht.
  - intros [_ [u Hu]]. discriminate Hu.
Qed.

Lemma entry_of_Some (o : ObjectLiteral) (e : NavigationEntry) :
  entry_of o = Some e →
  title e = lit_title o ∧ url e = lit_url o ∧ lit_icon o = Some (icon e).
Proof.
  unfold entry_of. destruct (lit_icon o) as [g|]; [|discriminate].
  intros [= <-]. done.
Qed.

Lemma mapM_entry_of (literal : list ObjectLiteral) (registry : list NavigationEntry) :
  mapM entry_of literal = Some registry →
  length registry = length literal ∧
  title <$> registry = lit_title <$> literal ∧
  url <$> registry = lit_url <$> literal.
Proof.
  intros H. apply mapM_Some in H.
  induction H as [|o e literal registry Hoe _ IH]; [done|].
  destruct IH as (Hlen & Ht & Hu).
  apply entry_of_Some in Hoe as (Hte & Hue & _).
  cbn [length fmap list_fmap]. cbn [fmap] in Ht, Hu.
  rewrite Hlen, Hte, Hue, Ht, Hu. done.
Qed.

Lemma mapM_entry_of_is_Some (literal : list ObjectLiteral) :
  is_Some (mapM entry_of literal) ↔ Forall (λ o, is_Some (lit_icon o)) literal.
Proof.
  rewrite mapM_is_Some. apply Forall_iff. intros o.
  unfold compose, entry_of. destruct (lit_icon o); split; intros [x Hx]; by eauto.
Qed.

(** Rendering throws exactly when some entry has no icon: the one failure
    there is, and it arises at render time. *)
Lemma boot_returns_iff (literal : list ObjectLiteral) :
  (∃ tree, boot literal = Returned tree) ↔
  Forall (λ o, is_Some (lit_icon o)) literal.
Proof.
  rewrite <- mapM_entry_of_is_Some. unfold boot, define_items, render_literal.
  destruct (mapM entry_of literal) as [registry|]; split.
  - by eauto.
  - by eauto.
  - intros [tree Htree]. discriminate Htree.
  - intros [registry Hreg]. discriminate Hreg.
Qed.

(** On literals written from typed entries, booting is the typed program. *)
Lemma boot_literal_of (R : list NavigationEntry) :
  boot (literal_of <$> R) = mount R.
Proof.
  unfold boot, define_items, render_literal, mount, startup.
  replace (mapM entry_of (literal_of <$> R)) with (Some R); [reflexivity|].
  symmetry. apply mapM_Some.
  induction R as [|[t u i] R IH]; constructor; [reflexivity | exact IH].
Qed.

(** A well-formed literal names the icon of every entry. *)
Lemma complete_names_icon (literal : list ObjectLiteral) :
  Forall complete literal → Forall (λ o, is_Some (lit_icon o)) literal.
Proof.
  intros Hall. eapply Forall_impl; [exact Hall|].
  intros o (_ & _ & Hicon). exact Hicon.
Qed.

(** C7, amended: nothing validates the registry.  Module evaluation stores
    the literal as it is written, so an entry without title or without path
    raises no failure at registry-construction time.  It raises none at
    render time either: for every literal whose entries name their icon,
    rendering returns a tree with one item per entry, the keys being the
    titles as written (none for an entry without title), the labels the
    titles (empty without title) and the link targets the paths as written
    (none for an entry without path).  Well-formed registries are among
    these ([complete_names_icon]), so rendering is total over them. *)
Theorem no_validation_and_render_of_malformed (literal : list ObjectLiteral) :
  Forall (λ o, is_Some (lit_icon o)) literal →
  define_items literal = Returned literal ∧
  ∃ tree,
    boot literal = Returned tree ∧
    length (menu_items tree) = length literal ∧
    item_keys tree = lit_title <$> literal ∧
    item_labels tree = (λ o, default "" (lit_title o)) <$> literal ∧
    item_targets tree = lit_url <$> literal.
Proof.
  intros Hicons. split; [reflexivity|].
  apply mapM_entry_of_is_Some in Hicons as [registry Hreg].
  exists (AppSidebar_of registry).
  destruct (mapM_entry_of literal registry Hreg) as (Hlen & Ht & Hu).
  split_and!.
  - unfold boot, define_items, render_literal. by rewrite Hreg.
  - rewrite menu_items_AppSidebar_of, length_map. exact Hlen.
  - rewrite item_keys_AppSidebar_of. exact Ht.
  - rewrite item_labels_AppSidebar_of.
    transitivity (default "" <$> (title <$> registry));
      [by rewrite <- list_fmap_compose|].
    rewrite Ht. by rewrite <- list_fmap_compose.
  - rewrite item_targets_AppSidebar_of. exact Hu.
Qed.

Lemma no_validation_and_render_of_malformed_witness :
  let literal :=
    [ {| lit_title := None; lit_url := Some "/search"; lit_icon := Some Search |};
      {| lit_title := Some "Calendar"; lit_url := None; lit_icon := Some Calendar |};
      {| lit_title := Some "Home"; lit_url := Some "/"; lit_icon := Some Home |} ] in
  Forall (λ o, is_Some (lit_icon o)) literal ∧
  ¬ Forall complete literal ∧
  define_items literal = Returned literal ∧
  ∃ tree,
    boot literal = Returned tree ∧
    length (menu_items tree) = length literal ∧
    item_keys tree = lit_title <$> literal ∧
    item_labels tree = (λ o, default "" (lit_title o)) <$> literal ∧
    item_targets tree = lit_url <$> literal.
Proof.
  intros literal.
  assert (Hicons : Forall (λ o, is_Some (lit_icon o)) literal)
    by (repeat constructor; by eexists).
  split; [exact Hicons|]. split.
  - intros Hall. apply Forall_cons in Hall as [[[t Ht] _] _]. discriminate Ht.
  - apply (no_validation_and_render_of_malformed literal Hicons).
Defined.

End Validation.

(** ** What each item is made of *)

Section ItemAnatomy.

Lemma elements_menu_item (e : NavigationEntry) :
  elements (menu_item e) =
  ([ menu_item e;
     Elem SidebarMenuButton
       {| key := None; asChild := true; to := None; className := None |}
       (select Link (menu_item e)) ]
   ++ select Link (menu_item e)
   ++ [ Elem (Lucide (icon e)) no_props [];
        Elem span no_props (text_child (title e)) ])%list.
Proof. destruct e as [[t|] u i]; reflexivity. Qed.

Lemma glyphs_menu_item (e : NavigationEntry) :
  glyphs (menu_item e) = [icon e].
Proof. destruct e as [[t|] u i]; reflexivity. Qed.

Lemma glyphs_menu_rows (R : list NavigationEntry) :
  flat_map glyphs (map menu_item R) = icon <$> R.
Proof.
  induction R as [|e R IH]; [done|].
  cbn [map flat_map fmap list_fmap]. rewrite glyphs_menu_item.
  cbn [app]. f_equal. exact IH.
Qed.

Lemma Forall_elements_menu_rows (P : Node → Prop) (R : list NavigationEntry) :
  (∀ e, Forall P (elements (menu_item e))) →
  Forall P (flat_map elements (map menu_item R)).
Proof.
  intros HP. induction R as [|e R IH]; [constructor|].
  cbn [map flat_map]. apply Forall_app. split; [apply HP | exact IH].
Qed.

(** The first six elements of the sidebar are its chrome, written without
    props; all further elements belong to the menu items. *)
Lemma elements_AppSidebar_of (R : list NavigationEntry) :
  type_of <$> take 6 (elements (AppSidebar_of R)) =
    Some <$> [Sidebar; SidebarContent; SidebarGroup; SidebarGroupLabel;
              SidebarGroupContent; SidebarMenu] ∧
  Forall (λ n, props_of n = no_props) (take 6 (elements (AppSidebar_of R))) ∧
  drop 6 (elements (AppSidebar_of R)) = flat_map elements (map menu_item R).
Proof.
  unfold AppSidebar_of. cbn. rewrite !app_nil_r.
  split_and!; [reflexivity | repeat constructor | reflexivity].
Qed.

Lemma Forall_elements_AppSidebar_of (P : Node → Prop) (R : list NavigationEntry) :
  (∀ n, props_of n = no_props → P n) →
  (∀ e, Forall P (elements (menu_item e))) →
  Forall P (elements (AppSidebar_of R)).
Proof.
  intros Hchrome Hrows.
  destruct (elements_AppSidebar_of R) as (_ & Hspine & Htail).
  rewrite <- (take_drop 6 (elements (AppSidebar_of R))).
  apply Forall_app. split.
  - eapply Forall_impl; [exact Hspine | exact Hchrome].
  - rewrite Htail. by apply Forall_elements_menu_rows.
Qed.

Lemma select_inside_items (c : Component) (R : list NavigationEntry) :
  c ∉ chrome_types →
  select c (AppSidebar_of R) = flat_map (select c) (map menu_item R).
Proof.
  intros Hc. unfold AppSidebar_of. cbn.
  repeat (case_decide;
          [subst c; exfalso; apply Hc; unfold chrome_types; repeat constructor|]).
  cbn. rewrite !app_nil_r. reflexivity.
Qed.

Lemma not_chrome (c : Component) :
  bool_decide (c ∈ chrome_types) = false → c ∉ chrome_types.
Proof. intros H. by apply bool_decide_eq_false in H. Qed.

Lemma elements_slot_ok (e : NavigationEntry) :
  Forall slot_ok (elements (menu_item e)).
Proof.
  rewrite elements_menu_item, select_Link_menu_item.
  cbn [app]. repeat (apply Forall_cons; split); [..|apply Forall_nil].
  all: unfold slot_ok; cbn; try discriminate; try exact I.
  intros _. split; [reflexivity|]. eexists. split; reflexivity.
Qed.

Lemma elements_key_ok (e : NavigationEntry) :
  Forall key_ok (elements (menu_item e)).
Proof.
  rewrite elements_menu_item, select_Link_menu_item.
  cbn [app]. repeat (apply Forall_cons; split); [..|apply Forall_nil].
  all: unfold key_ok; cbn; try done.
  all: try by intros [k Hk].
Qed.

Lemma select_button_menu_item (e : NavigationEntry) :
  select SidebarMenuButton (menu_item e) =
  [ Elem SidebarMenuButton
      {| key := None; asChild := true; to := None; className := None |}
      (select Link (menu_item e)) ].
Proof. destruct e as [[t|] u i]; reflexivity. Qed.

(** X1: the glyphs the sidebar shows are the icons of the registry, one per
    entry and in registry order, and inside every link the glyph comes first
    and the label second. *)
Theorem sidebar_shows_entry_icons (R : list NavigationEntry) :
  glyphs (AppSidebar_of R) = icon <$> R ∧
  (∀ i : nat, glyphs <$> menu_items (AppSidebar_of R) !! i
              = (λ e, [icon e]) <$> R !! i) ∧
  Forall (λ l, ∃ g, type_of <$> children_of l = [Some (Lucide g); Some span])
         (select Link (AppSidebar_of R)).
Proof.
  split_and!.
  - unfold AppSidebar_of. cbn. rewrite !app_nil_r. apply glyphs_menu_rows.
  - intros i. rewrite menu_items_AppSidebar_of, list_lookup_fmap.
    destruct (R !! i) as [e|]; [|reflexivity].
    cbn [fmap option_fmap option_map]. by rewrite glyphs_menu_item.
  - rewrite select_inside_items by (apply not_chrome; reflexivity).
    induction R as [|e R IH]; [constructor|].
    cbn [map flat_map]. rewrite select_Link_menu_item.
    constructor; [|exact IH]. by eexists.
Qed.

(** X2: every element the sidebar renders with [asChild] is a menu button
    holding exactly one child, a link; every menu button is rendered that
    way, and there is one per entry. *)
Theorem sidebar_buttons_wrap_one_link (R : list NavigationEntry) :
  Forall slot_ok (elements (AppSidebar_of R)) ∧
  Forall (λ b, asChild (props_of b) = true)
         (select SidebarMenuButton (AppSidebar_of R)) ∧
  length (select SidebarMenuButton (AppSidebar_of R)) = length R.
Proof.
  split_and!.
  - apply Forall_elements_AppSidebar_of; [|apply elements_slot_ok].
    intros n Hn. unfold slot_ok. rewrite Hn. discriminate.
  - rewrite select_inside_items by (apply not_chrome; reflexivity).
    induction R as [|e R IH]; [constructor|].
    cbn [map flat_map]. rewrite select_button_menu_item.
    constructor; [reflexivity | exact IH].
  - rewrite select_inside_items by (apply not_chrome; reflexivity).
    induction R as [|e R IH]; [reflexivity|].
    cbn [map flat_map]. rewrite select_button_menu_item.
    cbn [app length]. f_equal. exact IH.
Qed.

(** X3: identity keys sit on the menu items and nowhere else in the tree, and
    an item is without key exactly when its entry is without title. *)
Theorem sidebar_keys_on_items_only (R : list NavigationEntry) :
  Forall key_ok (elements (AppSidebar_of R)) ∧
  (Forall is_Some (item_keys (AppSidebar_of R)) ↔
   Forall (λ e, is_Some (title e)) R).
Proof.
  split.
  - apply Forall_elements_AppSidebar_of; [|apply elements_key_ok].
    intros n Hn. unfold key_ok. rewrite Hn. by intros [k Hk].
  - rewrite item_keys_AppSidebar_of. apply Forall_fmap.
Qed.

(** X4: the items of a registry put together from two parts are the items of
    the first part followed by the items of the second: entries added at the
    end leave the items before them as they were. *)
Theorem sidebar_items_of_appended_registry (R1 R2 : list NavigationEntry) :
  menu_items (AppSidebar_of (R1 ++ R2)) =
    (menu_items (AppSidebar_of R1) ++ menu_items (AppSidebar_of R2))%list ∧
  menu_items (AppSidebar_of R1) `prefix_of` menu_items (AppSidebar_of (R1 ++ R2)).
Proof.
  rewrite !menu_items_AppSidebar_of, map_app.
  split; [reflexivity|]. by eexists.
Qed.

#[local] Instance menu_item_inj : Inj (=) (=) menu_item.
Proof.
  intros [t1 u1 i1] [t2 u2 i2] Heq. unfold menu_item in Heq. cbn in Heq.
  congruence.
Qed.

(** X5: the rendered tree determines the registry: two registries that
    render the same sidebar are the same registry, entry by entry. *)
Theorem sidebar_render_is_injective (R1 R2 : list NavigationEntry) :
  AppSidebar_of R1 = AppSidebar_of R2 → R1 = R2.
Proof.
  intros Heq.
  assert (Hitems : menu_items (AppSidebar_of R1) = menu_items (AppSidebar_of R2))
    by (by rewrite Heq).
  rewrite !menu_items_AppSidebar_of in Hitems.
  by apply (inj (fmap menu_item)) in Hitems.
Qed.

Lemma sidebar_render_is_injective_witness :
  AppSidebar_of (reverse (reverse items)) = AppSidebar_of items ∧
  reverse (reverse items) = items.
Proof.
  assert (H : AppSidebar_of (reverse (reverse items)) = AppSidebar_of items)
    by reflexivity.
  split; [exact H|].
  apply (sidebar_render_is_injective (reverse (reverse items)) items H).
Defined.

End ItemAnatomy.

(** ** Where the sidebar can lead *)

Section SidebarLinks.

Lemma select_Link_menu_rows (R : list NavigationEntry) :
  (λ l, to (props_of l)) <$> flat_map (select Link) (map menu_item R) = url <$> R.
Proof.
  pose proof (item_targets_AppSidebar_of R) as H.
  unfold item_targets in H. rewrite menu_items_AppSidebar_of in H. exact H.
Qed.

(** X6: the links of the whole sidebar are the links of its items: their
    targets are the paths of the registry, in order, and activating
    everything the sidebar holds can request those paths and no other. *)
Theorem sidebar_leads_to_registry_paths_only
    (R : list NavigationEntry) (m : Method) :
  select Link (AppSidebar_of R) = flat_map (select Link) (menu_items (AppSidebar_of R)) ∧
  (λ l, to (props_of l)) <$> select Link (AppSidebar_of R) = url <$> R ∧
  activate m (AppSidebar_of R) = (λ e, Navigate (url e)) <$> R.
Proof.
  rewrite menu_items_AppSidebar_of.
  rewrite select_inside_items by (apply not_chrome; reflexivity).
  split_and!; [reflexivity | apply select_Link_menu_rows |].
  unfold activate.
  rewrite select_inside_items by (apply not_chrome; reflexivity).
  induction R as [|e R IH]; [done|].
  cbn [map flat_map fmap list_fmap]. rewrite select_Link_menu_item.
  cbn [app flat_map]. unfold Link_activated at 1. cbn [app props_of to].
  f_equal. exact IH.
Qed.

Lemma outlet_menu_rows (child : list Node) (R : list NavigationEntry) :
  flat_map (outlet child) (map menu_item R) = map menu_item R.
Proof.
  induction R as [|[[t|] u i] R IH]; [done| |];
    cbn [map flat_map]; rewrite IH; reflexivity.
Qed.

(** X7: the sidebar holds no outlet and no plain [div], for any registry, so
    the router's filling of outlets finds nothing to fill in it and leaves
    it as it is. *)
Theorem sidebar_has_no_outlet (R : list NavigationEntry) (child : list Node) :
  select Outlet (AppSidebar_of R) = [] ∧
  select div (AppSidebar_of R) = [] ∧
  outlet child (AppSidebar_of R) = [AppSidebar_of R].
Proof.
  split_and!.
  - rewrite select_inside_items by (apply not_chrome; reflexivity).
    induction R as [|[[t|] u i] R IH]; [done| |]; exact IH.
  - rewrite select_inside_items by (apply not_chrome; reflexivity).
    induction R as [|[[t|] u i] R IH]; [done| |]; exact IH.
  - unfold AppSidebar_of. cbn.
    repeat (case_decide; try congruence). cbn.
    rewrite ?app_nil_r, outlet_menu_rows. reflexivity.
Qed.

Lemma concat_textContent_menu_rows (R : list NavigationEntry) :
  map textContent (map menu_item R) = (λ e, default "" (title e)) <$> R.
Proof.
  rewrite map_map. apply map_ext. intros e. apply textContent_menu_item.
Qed.

(** X8: the text of the sidebar is the group label followed by the titles of
    the registry, in order; an entry without title adds nothing. *)
Theorem sidebar_text_is_label_then_titles (R : list NavigationEntry) :
  textContent (AppSidebar_of R) =
  "Application" ++ String.concat "" ((λ e, default "" (title e)) <$> R).
Proof.
  rewrite <- concat_textContent_menu_rows. reflexivity.
Qed.

End SidebarLinks.

(** ** What the layout adds around its child *)

Section LayoutFrame.

(** X9: whatever the router puts into the outlet, the elements of the filled
    layout are its two [div]s and, apart from them, exactly the elements of
    that content, in order: the layout adds no link, no menu item and no
    further outlet of its own. *)
Theorem layout_adds_only_its_frame (c : Component) (child : list Node) :
  flat_map (select c) (outlet child RouteComponent) =
  ((if decide (c = div)
    then [ Elem div
             {| key := None; asChild := false; to := None;
                className := Some "min-h-screen " |}
             [ Text "Dashboard Layout"; Elem div no_props child ];
           Elem div no_props child ]
    else []) ++ flat_map (select c) child)%list.
Proof.
  rewrite outlet_RouteComponent. cbn.
  rewrite ?app_nil_r.
  destruct (decide (div = c)) as [<-|Hne].
  - rewrite decide_True by reflexivity. reflexivity.
  - rewrite decide_False by congruence. reflexivity.
Qed.

(** X10: the text of the filled layout is "Dashboard Layout" followed by the
    text of the content in the outlet, and no navigation request can come
    from the frame itself: activating the filled layout requests what
    activating the content requests. *)
Theorem layout_text_and_requests (m : Method) (child : list Node) :
  textContent <$> outlet child RouteComponent =
    ["Dashboard Layout" ++ String.concat "" (textContent <$> child)] ∧
  flat_map (activate m) (outlet child RouteComponent) = flat_map (activate m) child.
Proof.
  rewrite outlet_RouteComponent. split.
  - reflexivity.
  - cbn [flat_map]. rewrite app_nil_r. unfold activate at 1. cbn.
    repeat (case_decide; try congruence). cbn. rewrite ?app_nil_r.
    induction child as [|n child IH]; [reflexivity|].
    cbn [flat_map]. rewrite flat_map_app. f_equal. exact IH.
Qed.

End LayoutFrame.

(** ** What a render depends on *)

Section RenderInputs.










End RenderInputs.
